(** * salt/modules/pw_user.py: user management through FreeBSD's [pw]

    A shallow embedding of the module's functions and the properties of
    the command lines they build, of the compare-mutate-verify protocol of
    the attribute changes, and of the group-membership query.

    The password and group databases and the effect of the spawned [pw]
    process live outside the module; they are modelled as a [host] value
    and as the [Salt] interface, and every function is a computation in a
    state-and-exception monad over the host and the log of executed
    command lines. *)

From Stdlib Require Import Ascii.
From stdpp Require Import base strings list gmap sorting pretty.

Open Scope Z_scope.

(** ** The operating system's databases (Python's [pwd] and [grp]) *)

Record struct_passwd := {
  pw_name : string;
  pw_passwd : string;
  pw_uid : Z;
  pw_gid : Z;
  pw_gecos : string;
  pw_dir : string;
  pw_shell : string
}.

Record struct_group := {
  gr_name : string;
  gr_passwd : string;
  gr_gid : Z;
  gr_mem : list string
}.

Record host := {
  getpwall : list struct_passwd;
  getgrall : list struct_group
}.

(** ** The execution collaborator ([__salt__]) *)

(** The dictionary that [cmd.run_all] returns. *)
Record run_result := {
  pid : Z;
  retcode : Z;
  stdout : string;
  stderr : string
}.

(** Running a command line in a shell: what the process does to the host,
    and what it reports. *)
Class Salt := spawn : string → host → host * run_result.

(** ** Computations: state passing with exceptions *)

Record state := {
  os : host;
  calls : list string
}.

Inductive exn :=
  | KeyError (key : string).

Inductive outcome (A : Type) :=
  | Return (a : A)
  | Raise (e : exn).
Arguments Return {A} a.
Arguments Raise {A} e.

Definition M (A : Type) : Type := state → outcome A * state.

Definition run {A} (m : M A) (st : state) : outcome A * state := m st.

Global Instance M_ret : MRet M := λ A a st, (Return a, st).

Global Instance M_bind : MBind M := λ A B f m st,
  match m st with
  | (Return a, st') => f a st'
  | (Raise e, st') => (Raise e, st')
  end.

(** [pwd.getpwnam]: the first entry of that name, [KeyError] without one. *)
Definition pwd_getpwnam (name : string) : M struct_passwd := λ st,
  match List.find (λ d, bool_decide (pw_name d = name)) (getpwall (os st)) with
  | Some d => (Return d, st)
  | None => (Raise (KeyError name), st)
  end.

Definition pwd_getpwall : M (list struct_passwd) := λ st,
  (Return (getpwall (os st)), st).

Definition grp_getgrall : M (list struct_group) := λ st,
  (Return (getgrall (os st)), st).

(** [__salt__['cmd.run_all'](cmd)]: the command is executed and logged, the
    whole result dictionary comes back. *)
Definition cmd_run_all `{Salt} (cmd : string) : M run_result := λ st,
  let '(h, r) := spawn cmd (os st) in
  (Return r, {| os := h; calls := calls st ++ [cmd] |}).

(** [__salt__['cmd.run'](cmd)]: the same execution, only the output text
    comes back. *)
Definition cmd_run `{Salt} (cmd : string) : M string :=
  r ← cmd_run_all cmd; mret (stdout r).

(** ** Python values and library functions the module relies on *)

(** [groups] is a comma-separated string or a sequence of names. *)
Inductive groups_arg :=
  | GroupsStr (s : string)
  | GroupsList (l : list string).

(** [home] is a boolean or a path. *)
Inductive home_arg :=
  | HomeBool (b : bool)
  | HomePath (p : string).

(** Values of the extra keyword arguments. *)
Inductive pyobj :=
  | PyNone
  | PyBool (b : bool)
  | PyInt (z : Z)
  | PyStr (s : string).

(** [s.split(sep)] for a one-character separator. *)
Fixpoint split (sep : Ascii.ascii) (s : string) : list string :=
  match s with
  | EmptyString => [""]
  | String c s' =>
      if Ascii.eqb c sep then "" :: split sep s'
      else match split sep s' with
           | w :: ws => String c w :: ws
           | [] => [String c ""]
           end
  end.

(** [sep.join(l)]. *)
Definition join (sep : string) (l : list string) : string :=
  String.concat sep l.

(** ['{0}'.format(z)] for an integer. *)
Definition format_int (z : Z) : string := pretty z.

(** Truth value of a string, of an integer and of a list. *)
Definition truthy_str (s : string) : bool := negb (String.eqb s "").
Definition truthy_int (z : Z) : bool := negb (Z.eqb z 0).
Definition truthy_list {A} (l : list A) : bool :=
  match l with [] => false | _ => true end.

(** [set(l)] and [sorted(list(s))]. *)
Definition set_of (l : list string) : gset string := list_to_set l.
Definition sorted (s : gset string) : list string :=
  merge_sort String.le (elements s).

(** [os.path.dirname] (posixpath): everything up to the last slash, with
    the trailing slashes stripped unless nothing else is left. *)
Definition is_slash (c : Ascii.ascii) : bool := Ascii.eqb c "/"%char.

Fixpoint has_slash (p : string) : bool :=
  match p with
  | EmptyString => false
  | String c p' => is_slash c || has_slash p'
  end.

Fixpoint all_slashes (p : string) : bool :=
  match p with
  | EmptyString => true
  | String c p' => is_slash c && all_slashes p'
  end.

(** [p[:p.rfind('/') + 1]] *)
Fixpoint upto_last_slash (p : string) : string :=
  match p with
  | EmptyString => ""
  | String c p' => if has_slash p then String c (upto_last_slash p') else ""
  end.

Fixpoint lstrip_slashes (p : string) : string :=
  match p with
  | EmptyString => ""
  | String c p' => if is_slash c then lstrip_slashes p' else p
  end.

Definition rstrip_slashes (p : string) : string :=
  String.rev (lstrip_slashes (String.rev p)).

Definition dirname (p : string) : string :=
  let head := upto_last_slash p in
  if truthy_str head && negb (all_slashes head)
  then rstrip_slashes head
  else head.

(** [if x: cmd += f(x)] for an optional parameter, [None] being false. *)
Definition add_if {A} (truthy : A → bool) (x : option A) (f : A → string)
    (cmd : string) : string :=
  match x with
  | Some a => if truthy a then cmd +:+ f a else cmd
  | None => cmd
  end.

(** ** The module *)

(** The mapping that [info] returns. *)
Record user_info := {
  info_name : string;
  info_passwd : string;
  info_uid : Z;
  info_gid : Z;
  info_home : string;
  info_shell : string;
  info_groups : list string
}.

Definition add `{Salt} (name : string) (uid gid : option Z)
    (groups : option groups_arg) (home : home_arg) (shell : option string)
    (system : bool) (kwargs : gmap string pyobj) : M bool :=
  let groups :=
    match groups with
    | Some (GroupsStr s) => Some (split "," s)
    | Some (GroupsList l) => Some l
    | None => None
    end in
  let cmd := "pw useradd " in
  let cmd := add_if truthy_str shell (λ shell, "-s " +:+ shell +:+ " ") cmd in
  let cmd := add_if truthy_int uid (λ uid, "-u " +:+ format_int uid +:+ " ") cmd in
  let cmd := add_if truthy_int gid (λ gid, "-g " +:+ format_int gid +:+ " ") cmd in
  let cmd :=
    add_if truthy_list groups (λ groups, "-G " +:+ join "," groups +:+ " ") cmd in
  let cmd :=
    match home with
    | HomeBool true => cmd +:+ "-m "
    | HomeBool false => cmd
    | HomePath p =>
        if truthy_str p then cmd +:+ "-m -b " +:+ dirname p +:+ " " else cmd
    end in
  let cmd := cmd +:+ "-n " +:+ name in
  ret ← cmd_run_all cmd;
  mret (negb (truthy_int (retcode ret))).

Definition delete `{Salt} (name : string) (remove force : bool) : M bool :=
  let cmd := "pw userdel " in
  let cmd := if remove then cmd +:+ "-r " else cmd in
  let cmd := cmd +:+ name in
  ret ← cmd_run_all cmd;
  mret (negb (truthy_int (retcode ret))).

(** The body of the loop of [list_groups]. *)
Definition collect (name : string) (ugrp : gset string) (group : struct_group)
    : gset string :=
  if bool_decide (name ∈ gr_mem group)
  then ugrp ∪ {[ gr_name group ]}
  else ugrp.

Definition list_groups (name : string) : M (list string) :=
  groups ← grp_getgrall;
  let ugrp := foldl (collect name) ∅ groups in
  mret (sorted ugrp).

Definition info (name : string) : M user_info :=
  data ← pwd_getpwnam name;
  groups ← list_groups name;
  mret {| info_name := pw_name data;
          info_passwd := pw_passwd data;
          info_uid := pw_uid data;
          info_gid := pw_gid data;
          info_home := pw_dir data;
          info_shell := pw_shell data;
          info_groups := groups |}.

(** The loop of [getent], [ret] being the list built so far. *)
Fixpoint getent_loop (entries : list struct_passwd) (ret : list user_info)
    : M (list user_info) :=
  match entries with
  | [] => mret ret
  | data :: entries =>
      i ← info (pw_name data);
      getent_loop entries (ret ++ [i])
  end.

Definition getent : M (list user_info) :=
  entries ← pwd_getpwall;
  getent_loop entries [].

Definition chuid `{Salt} (name : string) (uid : Z) : M bool :=
  pre_info ← info name;
  if bool_decide (uid = info_uid pre_info) then mret true else
  let cmd := "pw usermod -u " +:+ format_int uid +:+ " " +:+ name in
  _ ← cmd_run cmd;
  post_info ← info name;
  if bool_decide (info_uid post_info ≠ info_uid pre_info)
  then mret (bool_decide (info_uid post_info = uid))
  else mret false.

Definition chgid `{Salt} (name : string) (gid : Z) : M bool :=
  pre_info ← info name;
  if bool_decide (gid = info_gid pre_info) then mret true else
  let cmd := "pw usermod -g " +:+ format_int gid +:+ " " +:+ name in
  _ ← cmd_run cmd;
  post_info ← info name;
  if bool_decide (info_gid post_info ≠ info_gid pre_info)
  then mret (bool_decide (info_gid post_info = gid))
  else mret false.

Definition chshell `{Salt} (name : string) (shell : string) : M bool :=
  pre_info ← info name;
  if bool_decide (shell = info_shell pre_info) then mret true else
  let cmd := "pw usermod -s " +:+ shell +:+ " " +:+ name in
  _ ← cmd_run cmd;
  post_info ← info name;
  if bool_decide (info_shell post_info ≠ info_shell pre_info)
  then mret (bool_decide (info_shell post_info = shell))
  else mret false.

Definition chhome `{Salt} (name : string) (home : string) (persist : bool)
    : M bool :=
  pre_info ← info name;
  if bool_decide (home = info_home pre_info) then mret true else
  let cmd := "pw usermod -d " +:+ home +:+ " " in
  let cmd := if persist then cmd +:+ " -m " else cmd in
  let cmd := cmd +:+ name in
  _ ← cmd_run cmd;
  post_info ← info name;
  if bool_decide (info_home post_info ≠ info_home pre_info)
  then mret (bool_decide (info_home post_info = home))
  else mret false.

Definition chgroups `{Salt} (name : string) (groups : groups_arg)
    (append : bool) : M bool :=
  let groups :=
    match groups with
    | GroupsStr s => split "," s
    | GroupsList l => l
    end in
  l ← list_groups name;
  let ugrps := set_of l in
  if bool_decide (ugrps = set_of groups) then mret true else
  let cmd := "pw usermod -G " +:+ join "," groups +:+ " -n " +:+ name +:+ " " in
  let cmd := if append then cmd +:+ "-a" else cmd in
  _ ← cmd_run cmd;
  l ← list_groups name;
  let agrps := set_of l in
  mret (bool_decide (size (ugrps ∖ agrps) = 0%nat)).

(** ** Vocabulary of the properties *)

(** The names a [groups] argument stands for. *)
Definition group_names (groups : groups_arg) : list string :=
  match groups with
  | GroupsStr s => split "," s
  | GroupsList l => l
  end.

(** A change of one attribute of the user record. *)
Inductive change :=
  | ChUid (uid : Z)
  | ChGid (gid : Z)
  | ChShell (shell : string)
  | ChHome (home : string) (persist : bool).

Definition perform `{Salt} (name : string) (c : change) : M bool :=
  match c with
  | ChUid uid => chuid name uid
  | ChGid gid => chgid name gid
  | ChShell shell => chshell name shell
  | ChHome home persist => chhome name home persist
  end.

(** The record [i] has the value that [c] asks for. *)
Definition holds (c : change) (i : user_info) : Prop :=
  match c with
  | ChUid uid => info_uid i = uid
  | ChGid gid => info_gid i = gid
  | ChShell shell => info_shell i = shell
  | ChHome home _ => info_home i = home
  end.

(** The records [i] and [j] agree on the attribute that [c] is about. *)
Definition same_attr (c : change) (i j : user_info) : Prop :=
  match c with
  | ChUid _ => info_uid i = info_uid j
  | ChGid _ => info_gid i = info_gid j
  | ChShell _ => info_shell i = info_shell j
  | ChHome _ _ => info_home i = info_home j
  end.

Global Instance holds_dec c i : Decision (holds c i).
Proof. destruct c; simpl; apply _. Defined.

Global Instance same_attr_dec c i j : Decision (same_attr c i j).
Proof. destruct c; simpl; apply _. Defined.

(** The command line that the function of a change hands to the
    collaborator. *)
Definition usermod (name : string) (c : change) : string :=
  match c with
  | ChUid uid => "pw usermod -u " +:+ format_int uid +:+ " " +:+ name
  | ChGid gid => "pw usermod -g " +:+ format_int gid +:+ " " +:+ name
  | ChShell shell => "pw usermod -s " +:+ shell +:+ " " +:+ name
  | ChHome home persist =>
      let cmd := "pw usermod -d " +:+ home +:+ " " in
      let cmd := if persist then cmd +:+ " -m " else cmd in
      cmd +:+ name
  end.

(** The command line of a replacement of the groups. *)
Definition usermod_groups (name : string) (groups : list string)
    (append : bool) : string :=
  let cmd := "pw usermod -G " +:+ join "," groups +:+ " -n " +:+ name +:+ " " in
  if append then cmd +:+ "-a" else cmd.

(** The state after the collaborator has executed [cmd]. *)
Definition executed `{Salt} (cmd : string) (st : state) : state :=
  (run (cmd_run cmd) st).2.

(** Any request the module short-cuts when nothing is to be done. *)
Inductive request :=
  | Attribute (c : change)
  | Groups (groups : groups_arg) (append : bool).

Definition submit `{Salt} (name : string) (r : request) : M bool :=
  match r with
  | Attribute c => perform name c
  | Groups groups append => chgroups name groups append
  end.

(** The user already has what the request asks for. *)
Definition satisfied (name : string) (r : request) (st : state) : Prop :=
  match r with
  | Attribute c => ∃ pre, run (info name) st = (Return pre, st) ∧ holds c pre
  | Groups groups _ =>
      ∃ l, run (list_groups name) st = (Return l, st)
           ∧ set_of l = set_of (group_names groups)
  end.

(** The command line of a request. *)
Definition command (name : string) (r : request) : string :=
  match r with
  | Attribute c => usermod name c
  | Groups groups append => usermod_groups name (group_names groups) append
  end.

(** The record [i] shows the entry [d] and the groups that [list_groups]
    finds for its name. *)
Definition describes (st : state) (d : struct_passwd) (i : user_info) : Prop :=
  info_name i = pw_name d ∧ info_passwd i = pw_passwd d
  ∧ info_uid i = pw_uid d ∧ info_gid i = pw_gid d
  ∧ info_home i = pw_dir d ∧ info_shell i = pw_shell d
  ∧ run (list_groups (pw_name d)) st = (Return (info_groups i), st).

(** The string has a comma. *)
Fixpoint has_comma (s : string) : bool :=
  match s with
  | EmptyString => false
  | String c s' => Ascii.eqb c ","%char || has_comma s'
  end.

(** The text that an optional parameter contributes to a command line:
    its flag when the parameter counts as true, nothing otherwise. *)
Definition opt_flag {A} (truthy : A → bool) (x : option A) (f : A → string)
    : string :=
  match x with
  | Some a => if truthy a then f a else ""
  | None => ""
  end.

Definition flag_s (shell : option string) : string :=
  opt_flag truthy_str shell (λ shell, "-s " +:+ shell +:+ " ").

Definition flag_u (uid : option Z) : string :=
  opt_flag truthy_int uid (λ uid, "-u " +:+ format_int uid +:+ " ").

Definition flag_g (gid : option Z) : string :=
  opt_flag truthy_int gid (λ gid, "-g " +:+ format_int gid +:+ " ").

Definition flag_G (groups : option groups_arg) : string :=
  opt_flag truthy_list (group_names <$> groups)
           (λ groups, "-G " +:+ join "," groups +:+ " ").

Definition flag_home (home : home_arg) : string :=
  match home with
  | HomeBool true => "-m "
  | HomeBool false => ""
  | HomePath p => if truthy_str p then "-m -b " +:+ dirname p +:+ " " else ""
  end.

(** The command line of [add], flag by flag. *)
Definition useradd (name : string) (uid gid : option Z)
    (groups : option groups_arg) (home : home_arg) (shell : option string)
    : string :=
  "pw useradd " +:+ flag_s shell +:+ flag_u uid +:+ flag_g gid
    +:+ flag_G groups +:+ flag_home home +:+ "-n " +:+ name.

(** The names of the password database. *)
Definition known (st : state) : list string := pw_name <$> getpwall (os st).

(** ** Stand-ins for the collaborator and sample databases *)

(** Whatever the command line, the host becomes [h] and the process exits
    with [rc]. *)
Definition stub (h : host) (rc : Z) : Salt :=
  λ _ _, (h, {| pid := 1; retcode := rc; stdout := ""; stderr := "" |}).

Definition entry (name : string) (uid gid : Z) (home shell : string)
    : struct_passwd :=
  {| pw_name := name; pw_passwd := "*"; pw_uid := uid; pw_gid := gid;
     pw_gecos := ""; pw_dir := home; pw_shell := shell |}.

Definition members (name : string) (gid : Z) (mem : list string)
    : struct_group :=
  {| gr_name := name; gr_passwd := "*"; gr_gid := gid; gr_mem := mem |}.

(** alice, uid 1001, in group staff. *)
Definition host_staff : host :=
  {| getpwall := [entry "root" 0 0 "/root" "/bin/sh";
                  entry "alice" 1001 1001 "/home/alice" "/bin/sh"];
     getgrall := [members "wheel" 0 ["root"];
                  members "staff" 20 ["alice"];
                  members "alice" 1001 []] |}.

(** The same host after alice has moved from staff to wheel. *)
Definition host_wheel : host :=
  {| getpwall := getpwall host_staff;
     getgrall := [members "wheel" 0 ["root"; "alice"];
                  members "staff" 20 [];
                  members "alice" 1001 []] |}.

(** The same host after alice's uid has become 1002. *)
Definition host_uid : host :=
  {| getpwall := [entry "root" 0 0 "/root" "/bin/sh";
                  entry "alice" 1002 1001 "/home/alice" "/bin/sh"];
     getgrall := getgrall host_staff |}.

(** A group database that lists root twice for one group name. *)
Definition host_duplicates : host :=
  {| getpwall := [entry "root" 0 0 "/root" "/bin/sh"];
     getgrall := [members "root" 0 ["root"];
                  members "wheel" 0 ["root"; "toor"];
                  members "root" 0 ["toor"; "root"];
                  members "operator" 5 ["toor"]] |}.

Definition fresh (h : host) : state := {| os := h; calls := [] |}.

(** What [info] tells about alice on these hosts. *)
Definition alice_info (uid : Z) (groups : list string) : user_info :=
  {| info_name := "alice"; info_passwd := "*"; info_uid := uid;
     info_gid := 1001; info_home := "/home/alice"; info_shell := "/bin/sh";
     info_groups := groups |}.

(** * Properties *)

(** ** Running computations *)

Lemma run_mret {A} (a : A) st : run (mret a) st = (Return a, st).
Proof. reflexivity. Qed.

Lemma run_bind_return {A B} (m : M A) (f : A → M B) st a st' :
  run m st = (Return a, st') → run (m ≫= f) st = run (f a) st'.
Proof. unfold run, mbind, M_bind. by intros ->. Qed.

Lemma run_bind_raise {A B} (m : M A) (f : A → M B) st e st' :
  run m st = (Raise e, st') → run (m ≫= f) st = (Raise e, st').
Proof. unfold run, mbind, M_bind. by intros ->. Qed.

(** One step of a run whose first action is known to return. *)
Ltac step_info Hinfo := erewrite run_bind_return by exact Hinfo.

Lemma run_cmd_run `{Salt} cmd st :
  run (cmd_run cmd) st = (Return (stdout (spawn cmd (os st)).2), executed cmd st).
Proof.
  unfold executed, run, cmd_run, mbind, M_bind, cmd_run_all.
  by destruct (spawn cmd (os st)).
Qed.

Lemma executed_eq `{Salt} cmd st :
  executed cmd st = {| os := (spawn cmd (os st)).1; calls := calls st ++ [cmd] |}.
Proof.
  unfold executed, run, cmd_run, mbind, M_bind, cmd_run_all.
  by destruct (spawn cmd (os st)).
Qed.

(** ** Group membership *)

Lemma elem_of_collected name groups ugrp g :
  g ∈ foldl (collect name) ugrp groups ↔
  g ∈ ugrp ∨ ∃ group, group ∈ groups ∧ gr_name group = g ∧ name ∈ gr_mem group.
Proof.
  revert ugrp. induction groups as [|group groups IH]; intros ugrp; simpl.
  - split; [by left|]. intros [?|(group & Hin & _)]; [done|].
    by apply elem_of_nil in Hin.
  - rewrite IH. unfold collect. split.
    + intros [Hg|(group' & Hin & Hname & Hmem)].
      * case_bool_decide as Hmem; [|by left].
        apply elem_of_union in Hg as [Hg|Hg]; [by left|].
        apply elem_of_singleton in Hg. right. exists group.
        split; [apply list_elem_of_here|done].
      * right. exists group'. split; [by apply list_elem_of_further|done].
    + intros [Hg|(group' & Hin & Hname & Hmem)].
      * left. case_bool_decide; [|done]. apply elem_of_union. by left.
      * apply elem_of_cons in Hin as [->|Hin].
        -- left. rewrite bool_decide_eq_true_2 by done.
           apply elem_of_union. right. by apply elem_of_singleton.
        -- right. by exists group'.
Qed.

Lemma run_list_groups name st :
  run (list_groups name) st =
    (Return (sorted (foldl (collect name) ∅ (getgrall (os st)))), st).
Proof. reflexivity. Qed.

Lemma elem_of_sorted (s : gset string) g : g ∈ sorted s ↔ g ∈ s.
Proof.
  unfold sorted. rewrite merge_sort_Permutation. apply elem_of_elements.
Qed.

Lemma NoDup_sorted (s : gset string) : NoDup (sorted s).
Proof.
  unfold sorted. rewrite merge_sort_Permutation. apply NoDup_elements.
Qed.

Lemma Sorted_sorted (s : gset string) : StronglySorted String.le (sorted s).
Proof. apply StronglySorted_merge_sort; apply _. Qed.

(** A sorted list without duplicates ascends strictly. *)
Lemma StronglySorted_strict (l : list string) :
  StronglySorted String.le l → NoDup l → StronglySorted (strict String.le) l.
Proof.
  induction 1 as [|x l Hl IH Hx]; intros Hnd; constructor.
  - apply IH. by eapply NoDup_cons_1_2.
  - apply NoDup_cons in Hnd as [Hnotin _].
    rewrite Forall_forall in Hx. apply Forall_forall. intros y Hy.
    apply strict_spec_alt. split; [by apply Hx|]. by intros ->.
Qed.

Lemma set_of_sorted (s : gset string) : set_of (sorted s) = s.
Proof.
  apply set_eq. intros g. unfold set_of.
  by rewrite elem_of_list_to_set, elem_of_sorted.
Qed.

Lemma list_groups_total name st :
  ∃ l, run (list_groups name) st = (Return l, st).
Proof. eexists. apply run_list_groups. Qed.

(** The scenario of the specification: a user listed twice under one group
    name. *)
Example list_groups_duplicates :
  run (list_groups "root") (fresh host_duplicates)
  = (Return ["root"; "wheel"], fresh host_duplicates).
Proof. vm_compute. reflexivity. Qed.

(** C8: [list_groups] returns, without touching the state, a strictly
    ascending (so sorted and duplicate-free) list of exactly the names of
    the groups whose member list contains the user. The password database,
    and with it the primary gid, plays no part in the answer. *)
Theorem list_groups_sorted_members name st :
  ∃ l, run (list_groups name) st = (Return l, st)
    ∧ Sorted String.le l
    ∧ StronglySorted (strict String.le) l
    ∧ NoDup l
    ∧ (∀ g, g ∈ l ↔
         ∃ group, group ∈ getgrall (os st) ∧ gr_name group = g
                  ∧ name ∈ gr_mem group)
    ∧ (∀ passwords log,
         run (list_groups name)
             {| os := {| getpwall := passwords; getgrall := getgrall (os st) |};
                calls := log |}
         = (Return l,
            {| os := {| getpwall := passwords; getgrall := getgrall (os st) |};
               calls := log |})).
Proof.
  eexists. split; [apply run_list_groups|].
  split; [apply StronglySorted_Sorted, Sorted_sorted|].
  split; [apply StronglySorted_strict; [apply Sorted_sorted|apply NoDup_sorted]|].
  split; [apply NoDup_sorted|].
  split.
  - intros g. rewrite elem_of_sorted, elem_of_collected.
    split; [intros [Hg|Hg]; [by apply not_elem_of_empty in Hg|done]|by right].
  - intros passwords log. reflexivity.
Qed.

(** ** Command lines of [add] and [delete] *)

Lemma not_truthy_int z : negb (truthy_int z) = bool_decide (z = 0).
Proof.
  unfold truthy_int. rewrite negb_involutive.
  destruct (Z.eqb_spec z 0) as [->|Hz].
  - by rewrite bool_decide_eq_true_2.
  - by rewrite bool_decide_eq_false_2.
Qed.

Lemma run_cmd_run_all_bind `{Salt} {B} cmd (k : run_result → M B) st :
  run (cmd_run_all cmd ≫= k) st = run (k (spawn cmd (os st)).2) (executed cmd st).
Proof.
  rewrite executed_eq. unfold run, mbind, M_bind, cmd_run_all.
  by destruct (spawn cmd (os st)).
Qed.

Lemma run_cmd_run_bind `{Salt} {B} cmd (k : string → M B) st :
  run (cmd_run cmd ≫= k) st
  = run (k (stdout (spawn cmd (os st)).2)) (executed cmd st).
Proof. by erewrite run_bind_return by apply run_cmd_run. Qed.

(** C3: the scenario of the specification builds exactly that command
    line, executes it once, and answers true exactly when the process
    exits with 0. *)
Theorem add_alice_command `{Salt} st :
  let cmd := "pw useradd -s /bin/sh -u 1000 -g 1000 -G wheel,ops -m -n alice" in
  run (add "alice" (Some 1000) (Some 1000) (Some (GroupsStr "wheel,ops"))
           (HomeBool true) (Some "/bin/sh") false ∅) st
  = (Return (bool_decide (retcode (spawn cmd (os st)).2 = 0)),
     {| os := (spawn cmd (os st)).1; calls := calls st ++ [cmd] |}).
Proof.
  intros cmd. unfold add.
  match goal with
  | |- context [cmd_run_all ?c] => change c with cmd
  end.
  rewrite run_cmd_run_all_bind, run_mret, not_truthy_int.
  by rewrite executed_eq.
Qed.

(** C5, the failing input: a uid of 0 is supplied and the command line has
    no [-u 0]; whatever the other parameters are, the run is the one of a
    call without uid. *)
Theorem add_uid_zero_dropped `{Salt} name gid groups home shell system kwargs st :
  calls (run (add "toor" (Some 0) None None (HomeBool true) None false ∅) st).2
  = calls st ++ ["pw useradd -m -n toor"]
  ∧ run (add name (Some 0) gid groups home shell system kwargs) st
    = run (add name None gid groups home shell system kwargs) st.
Proof.
  split; [|reflexivity]. unfold add.
  match goal with
  | |- context [cmd_run_all ?c] => change c with "pw useradd -m -n toor"
  end.
  rewrite run_cmd_run_all_bind, run_mret. simpl. by rewrite executed_eq.
Qed.

(** Any other uid is written. *)
Lemma add_uid_nonzero_kept `{Salt} name uid st :
  uid ≠ 0 →
  calls (run (add name (Some uid) None None (HomeBool true) None false ∅) st).2
  = calls st
    ++ [(("pw useradd " +:+ "-u " +:+ format_int uid +:+ " ") +:+ "-m ")
          +:+ "-n " +:+ name].
Proof.
  intros Huid. unfold add, add_if, truthy_int.
  rewrite (proj2 (Z.eqb_neq uid 0) Huid). simpl negb. cbv iota.
  rewrite run_cmd_run_all_bind, run_mret. simpl. by rewrite executed_eq.
Qed.

(** [info] reads and leaves the state alone. *)
Lemma info_state name st o st' : run (info name) st = (o, st') → st' = st.
Proof.
  unfold run, info, list_groups, grp_getgrall, mbind, M_bind, pwd_getpwnam.
  destruct (find _ _); simpl; by intros [= _ <-].
Qed.

(** Where [chuid] is given the same uid, it does write [-u 0]. *)
Lemma chuid_zero_command `{Salt} st pre :
  run (info "toor") st = (Return pre, st) → info_uid pre ≠ 0 →
  calls (run (chuid "toor" 0) st).2 = calls st ++ ["pw usermod -u 0 toor"].
Proof.
  intros Hpre Hne. unfold chuid.
  erewrite run_bind_return by exact Hpre.
  rewrite bool_decide_eq_false_2 by done.
  change ("pw usermod -u " +:+ format_int 0 +:+ " " +:+ "toor")
    with "pw usermod -u 0 toor".
  rewrite run_cmd_run_bind.
  destruct (run (info "toor") (executed "pw usermod -u 0 toor" st))
    as [[post|e] st'] eqn:Hpost;
    pose proof (info_state _ _ _ _ Hpost) as ->.
  - erewrite run_bind_return by exact Hpost.
    case_bool_decide; rewrite run_mret; simpl; by rewrite executed_eq.
  - erewrite run_bind_raise by exact Hpost. simpl. by rewrite executed_eq.
Qed.

(** C6: [delete] builds [pw userdel -r <name>] or [pw userdel <name>], and
    [force] changes neither the command line nor anything else. *)
Theorem delete_command `{Salt} name remove force force' st :
  calls (run (delete name remove force) st).2
  = calls st ++ [if remove then "pw userdel -r " +:+ name
                 else "pw userdel " +:+ name]
  ∧ run (delete name remove force) st = run (delete name remove force') st.
Proof.
  split; [|reflexivity].
  unfold delete. rewrite run_cmd_run_all_bind, run_mret. simpl.
  rewrite executed_eq. simpl. by destruct remove.
Qed.

(** C10: neither [system] nor the extra keyword arguments reach the command
    line or the result of [add]. *)
Theorem add_ignores_system_and_kwargs `{Salt} name uid gid groups home shell
    system system' kwargs kwargs' st :
  run (add name uid gid groups home shell system kwargs) st
  = run (add name uid gid groups home shell system' kwargs') st.
Proof. reflexivity. Qed.

(** ** Compare, mutate, verify *)

(** Two collaborators that do the same to the host, whatever they report,
    leave the same state behind. *)
Lemma executed_agree (S1 S2 : Salt) cmd st :
  (∀ c h, (@spawn S1 c h).1 = (@spawn S2 c h).1) →
  @executed S1 cmd st = @executed S2 cmd st.
Proof. intros Hagree. rewrite !executed_eq. by rewrite Hagree. Qed.

Lemma run_perform `{Salt} name c st pre post :
  let st' := executed (usermod name c) st in
  run (info name) st = (Return pre, st) →
  ¬ holds c pre →
  run (info name) st' = (Return post, st') →
  run (perform name c) st
  = (Return (if decide (same_attr c pre post) then false
             else bool_decide (holds c post)), st').
Proof.
  intros st' Hpre Hne Hpost.
  destruct c as [uid|gid|shell|home persist]; simpl in *;
    [unfold chuid|unfold chgid|unfold chshell|unfold chhome];
    step_info Hpre;
    (rewrite bool_decide_eq_false_2 by (by intros ->));
    rewrite run_cmd_run_bind; step_info Hpost;
    destruct (decide _) as [Heq|Hdiff].
  all: try (rewrite bool_decide_eq_false_2 by (by rewrite Heq; intros ?); done).
  all: by rewrite bool_decide_eq_true_2 by (by intros ?).
Qed.

(** What the process reports (exit code, output) never reaches the result
    of an attribute change. *)
Lemma perform_ignores_report (S1 S2 : Salt) name c st :
  (∀ cmd h, (@spawn S1 cmd h).1 = (@spawn S2 cmd h).1) →
  run (@perform S1 name c) st = run (@perform S2 name c) st.
Proof.
  intros Hagree.
  destruct (run (info name) st) as [[pre|e] st1] eqn:Hpre;
    pose proof (info_state _ _ _ _ Hpre) as ->.
  - destruct c as [uid|gid|shell|home persist]; simpl;
      [unfold chuid|unfold chgid|unfold chshell|unfold chhome];
      rewrite !(run_bind_return _ _ _ _ _ Hpre);
      case_bool_decide; try done;
      rewrite !run_cmd_run_bind;
      by rewrite (executed_agree S1 S2).
  - destruct c; simpl;
      [unfold chuid|unfold chgid|unfold chshell|unfold chhome];
      by rewrite !(run_bind_raise _ _ _ _ _ Hpre).
Qed.

(** C1: when the requested value differs from the current one, the
    modification command is executed, the record is read again, and the
    answer is false if the attribute is as it was and otherwise tells
    whether it now has the requested value. Any other collaborator that
    does the same to the host, whatever exit code and output it reports,
    gives the same run: the same answer, host and command log. *)
Theorem change_verified_by_reread (S : Salt) name c st pre post :
  let st' := @executed S (usermod name c) st in
  run (info name) st = (Return pre, st) →
  ¬ holds c pre →
  run (info name) st' = (Return post, st') →
  run (@perform S name c) st
  = (Return (if decide (same_attr c pre post) then false
             else bool_decide (holds c post)), st')
  ∧ ∀ S' : Salt,
      (∀ cmd h, (@spawn S' cmd h).1 = (@spawn S cmd h).1) →
      run (@perform S' name c) st = run (@perform S name c) st.
Proof.
  intros st' Hpre Hne Hpost. split.
  - by apply (@run_perform S).
  - intros S' Hagree. by apply (perform_ignores_report S' S).
Qed.

Lemma run_submit_satisfied `{Salt} name r st :
  satisfied name r st → run (submit name r) st = (Return true, st).
Proof.
  destruct r as [c|groups append]; simpl.
  - intros (pre & Hpre & Hholds).
    destruct c as [uid|gid|shell|home persist]; simpl in *;
      [unfold chuid|unfold chgid|unfold chshell|unfold chhome];
      step_info Hpre; by rewrite bool_decide_eq_true_2.
  - intros (l & Hl & Hset). unfold chgroups.
    step_info Hl. by rewrite bool_decide_eq_true_2.
Qed.

(** C4: when the user already has what is asked for, the answer is true
    and the state is the one before: no command line was handed to the
    collaborator, and the host is untouched. *)
Theorem nothing_to_do `{Salt} name r st :
  satisfied name r st → run (submit name r) st = (Return true, st).
Proof. apply run_submit_satisfied. Qed.

(** ** Verification of [chgroups] *)

Lemma no_group_lost (pre post : list string) :
  size (set_of pre ∖ set_of post) = 0%nat ↔ pre ⊆ post.
Proof.
  rewrite size_empty_iff. unfold set_of. split.
  - intros Hempty g Hg. destruct (decide (g ∈ post)) as [|Hnot]; [done|].
    assert (g ∈ (∅ : gset string)) as Habs; [|by apply not_elem_of_empty in Habs].
    rewrite <- Hempty. apply elem_of_difference.
    by rewrite !elem_of_list_to_set.
  - intros Hsub. apply elem_of_equiv_empty. intros g Hg.
    apply elem_of_difference in Hg as [Hpre Hpost].
    rewrite elem_of_list_to_set in Hpre, Hpost. by apply Hpost, Hsub.
Qed.

Lemma run_chgroups `{Salt} name groups append st pre post :
  let requested := group_names groups in
  let st' := executed (usermod_groups name requested append) st in
  run (list_groups name) st = (Return pre, st) →
  set_of pre ≠ set_of requested →
  run (list_groups name) st' = (Return post, st') →
  run (chgroups name groups append) st = (Return (bool_decide (pre ⊆ post)), st').
Proof.
  intros requested st' Hpre Hne Hpost. unfold chgroups.
  step_info Hpre. rewrite bool_decide_eq_false_2 by done.
  rewrite run_cmd_run_bind. step_info Hpost. rewrite run_mret.
  do 2 f_equal. apply bool_decide_ext, no_group_lost.
Qed.



(** ** Lookup misses *)

Lemma find_by_name name (l : list struct_passwd) :
  match find (λ d, bool_decide (pw_name d = name)) l with
  | Some d => pw_name d = name ∧ d ∈ l
  | None => name ∉ pw_name <$> l
  end.
Proof.
  induction l as [|d l IH]; simpl; [apply not_elem_of_nil|].
  case_bool_decide as Hd.
  - split; [done|apply list_elem_of_here].
  - destruct (find _ l) as [d'|].
    + destruct IH. split; [done|by apply list_elem_of_further].
    + rewrite not_elem_of_cons. by split; [intros ->|].
Qed.

Lemma getpwnam_miss name st :
  name ∉ known st → run (pwd_getpwnam name) st = (Raise (KeyError name), st).
Proof.
  intros Hmiss. unfold run, pwd_getpwnam.
  pose proof (find_by_name name (getpwall (os st))) as Hfind.
  destruct (find _ _) as [d|]; [|done].
  destruct Hfind as [<- Hin]. destruct Hmiss.
  by apply list_elem_of_fmap_2.
Qed.

Lemma getpwnam_hit name st :
  name ∈ known st → ∃ d, run (pwd_getpwnam name) st = (Return d, st).
Proof.
  intros Hhit. unfold run, pwd_getpwnam.
  pose proof (find_by_name name (getpwall (os st))) as Hfind.
  destruct (find _ _) as [d|]; [by exists d|done].
Qed.

Lemma info_miss name st :
  name ∉ known st → run (info name) st = (Raise (KeyError name), st).
Proof.
  intros Hmiss. unfold info.
  erewrite run_bind_raise by (by apply getpwnam_miss). done.
Qed.

Lemma info_hit name st :
  name ∈ known st → ∃ i, run (info name) st = (Return i, st).
Proof.
  intros [d Hd]%getpwnam_hit. unfold info.
  erewrite run_bind_return by exact Hd.
  erewrite run_bind_return by apply run_list_groups.
  eexists. apply run_mret.
Qed.

Lemma info_raise_inv name st e st' :
  run (info name) st = (Raise e, st') →
  e = KeyError name ∧ (name ∉ known st) ∧ st' = st.
Proof.
  intros Hrun. destruct (decide (name ∈ known st)) as [Hhit|Hmiss].
  - apply info_hit in Hhit as [i Hi]. congruence.
  - rewrite info_miss in Hrun by done. by simplify_eq.
Qed.

Lemma perform_miss `{Salt} name c st :
  name ∉ known st → run (perform name c) st = (Raise (KeyError name), st).
Proof.
  intros Hmiss%info_miss.
  destruct c; simpl;
    [unfold chuid|unfold chgid|unfold chshell|unfold chhome];
    erewrite run_bind_raise by exact Hmiss; done.
Qed.

Lemma perform_raise_inv `{Salt} name c st e st' :
  run (perform name c) st = (Raise e, st') →
  e = KeyError name ∧ (name ∉ known st ∨ name ∉ known st').
Proof.
  destruct (decide (name ∈ known st)) as [Hhit|Hmiss].
  - apply info_hit in Hhit as [pre Hpre].
    destruct (decide (holds c pre)) as [Hholds|Hne].
    { pose proof (run_submit_satisfied name (Attribute c) st) as Hrun.
      simpl in Hrun. rewrite Hrun; [done|]. by exists pre. }
    destruct (run (info name) (executed (usermod name c) st))
      as [[post|e'] st''] eqn:Hpost;
      pose proof (info_state _ _ _ _ Hpost) as ->.
    + by rewrite (run_perform name c st pre post).
    + apply info_raise_inv in Hpost as (-> & Hmiss & _).
      destruct c; simpl in *;
        [unfold chuid|unfold chgid|unfold chshell|unfold chhome];
        step_info Hpre;
        (rewrite bool_decide_eq_false_2 by (by intros ->));
        rewrite run_cmd_run_bind;
        (erewrite run_bind_raise by (by apply info_miss));
        intros; simplify_eq; by auto.
  - rewrite perform_miss by done. intros. simplify_eq. by auto.
Qed.

Lemma getent_loop_miss name entries ret st :
  name ∉ known st → name ∈ pw_name <$> entries →
  ∃ key, run (getent_loop entries ret) st = (Raise (KeyError key), st).
Proof.
  intros Hmiss. revert ret.
  induction entries as [|data entries IH]; intros ret Hin; simpl in *.
  - by apply elem_of_nil in Hin.
  - destruct (decide (pw_name data ∈ known st)) as [Hhit|Hmiss'].
    + assert (name ∈ pw_name <$> entries) as Hin'.
      { apply elem_of_cons in Hin as [->|Hin]; [by destruct Hmiss|done]. }
      apply info_hit in Hhit as [i Hi]. step_info Hi. by apply IH.
    + exists (pw_name data).
      erewrite run_bind_raise by (by apply info_miss). done.
Qed.

Lemma getent_loop_raise_inv entries ret st e st' :
  run (getent_loop entries ret) st = (Raise e, st') →
  ∃ name, name ∈ pw_name <$> entries ∧ (name ∉ known st) ∧ e = KeyError name.
Proof.
  revert ret. induction entries as [|data entries IH]; intros ret; simpl.
  - by rewrite run_mret.
  - destruct (run (info (pw_name data)) st) as [[i|e'] st1] eqn:Hi;
      pose proof (info_state _ _ _ _ Hi) as ->.
    + step_info Hi. intros (name & Hin & Hmiss & ->)%IH.
      exists name. split; [by apply list_elem_of_further|done].
    + erewrite run_bind_raise by exact Hi. intros [= <- <-].
      apply info_raise_inv in Hi as (-> & Hmiss & _).
      exists (pw_name data). split; [apply list_elem_of_here|done].
Qed.

(** Within one snapshot of the database every enumerated name is found, so
    [getent] itself returns. *)
Lemma getent_total st : ∃ l, run getent st = (Return l, st).
Proof.
  destruct (run getent st) as [[l|e] st'] eqn:Hrun.
  - exists l. f_equal. unfold getent in Hrun.
    erewrite run_bind_return in Hrun by reflexivity.
    clear -Hrun. revert Hrun. generalize (@nil user_info).
    induction (getpwall (os st)) as [|data entries IH]; intros ret; simpl.
    + rewrite run_mret. by intros [= _ <-].
    + destruct (run (info (pw_name data)) st) as [[i|e'] st1] eqn:Hi;
        pose proof (info_state _ _ _ _ Hi) as ->.
      * step_info Hi. apply IH.
      * erewrite run_bind_raise by exact Hi. done.
  - unfold getent in Hrun.
    erewrite run_bind_return in Hrun by reflexivity.
    apply getent_loop_raise_inv in Hrun as (name & Hin & Hmiss & _).
    by destruct Hmiss.
Qed.

Lemma add_total `{Salt} name uid gid groups home shell system kwargs st :
  ∃ b st', run (add name uid gid groups home shell system kwargs) st
           = (Return b, st').
Proof. unfold add. rewrite run_cmd_run_all_bind, run_mret. eauto. Qed.

Lemma delete_total `{Salt} name remove force st :
  ∃ b st', run (delete name remove force) st = (Return b, st').
Proof. unfold delete. rewrite run_cmd_run_all_bind, run_mret. eauto. Qed.

Lemma chgroups_total `{Salt} name groups append st :
  ∃ b st', run (chgroups name groups append) st = (Return b, st').
Proof.
  destruct (list_groups_total name st) as [pre Hpre].
  destruct (decide (set_of pre = set_of (group_names groups))) as [Heq|Hne].
  - pose proof (run_submit_satisfied name (Groups groups append) st) as Hrun.
    simpl in Hrun. rewrite Hrun; [eauto|]. by exists pre.
  - destruct (list_groups_total name
                (executed (usermod_groups name (group_names groups) append) st))
      as [post Hpost].
    rewrite (run_chgroups _ _ _ _ pre post Hpre Hne Hpost).
    eauto.
Qed.

(** C9: for a name that the password database does not have, [info]
    raises the lookup error instead of answering, and so does each of
    [chuid], [chgid], [chshell] and [chhome], and so does the loop of
    [getent] over any entries that carry the name. Nothing else is ever
    raised: [add], [delete], [chgroups] and [list_groups] always answer,
    and whatever [info], an attribute change or the loop of [getent] raises
    is the lookup error of a name missing from the database. *)
Theorem lookup_miss_propagates `{Salt} name st :
  name ∉ known st →
  run (info name) st = (Raise (KeyError name), st)
  ∧ (∀ c, run (perform name c) st = (Raise (KeyError name), st))
  ∧ (∀ entries ret, name ∈ pw_name <$> entries →
       ∃ key, run (getent_loop entries ret) st = (Raise (KeyError key), st))
  ∧ (∀ n uid gid groups home shell system kwargs s,
       ∃ b s', run (add n uid gid groups home shell system kwargs) s
               = (Return b, s'))
  ∧ (∀ n remove force s, ∃ b s', run (delete n remove force) s = (Return b, s'))
  ∧ (∀ n groups append s,
       ∃ b s', run (chgroups n groups append) s = (Return b, s'))
  ∧ (∀ n s, ∃ l, run (list_groups n) s = (Return l, s))
  ∧ (∀ n s e s', run (info n) s = (Raise e, s') →
       e = KeyError n ∧ (n ∉ known s))
  ∧ (∀ n c s e s', run (perform n c) s = (Raise e, s') →
       e = KeyError n ∧ (n ∉ known s ∨ n ∉ known s'))
  ∧ (∀ entries ret s e s', run (getent_loop entries ret) s = (Raise e, s') →
       ∃ n, n ∈ pw_name <$> entries ∧ (n ∉ known s) ∧ e = KeyError n).
Proof.
  intros Hmiss.
  split; [by apply info_miss|].
  split; [intros c; by apply perform_miss|].
  split; [intros entries ret; by apply getent_loop_miss|].
  split; [intros; apply add_total|].
  split; [intros; apply delete_total|].
  split; [intros; apply chgroups_total|].
  split; [intros; apply list_groups_total|].
  split; [intros n s e s' (-> & ? & _)%info_raise_inv; done|].
  split; [intros n c s e s'; apply perform_raise_inv|].
  intros entries ret s e s'. apply getent_loop_raise_inv.
Qed.

(** ** The theorems at work on the sample databases *)

Lemma change_verified_by_reread_witness :
  ¬ holds (ChUid 1002) (alice_info 1001 ["staff"])
  ∧ run (@perform (stub host_uid 0) "alice" (ChUid 1002)) (fresh host_staff)
    = (Return true, {| os := host_uid; calls := ["pw usermod -u 1002 alice"] |})
  ∧ run (@perform (stub host_uid 1) "alice" (ChUid 1002)) (fresh host_staff)
    = run (@perform (stub host_uid 0) "alice" (ChUid 1002)) (fresh host_staff).
Proof.
  assert (¬ holds (ChUid 1002) (alice_info 1001 ["staff"])) as Hne
    by (simpl; lia).
  split; [exact Hne|].
  destruct (change_verified_by_reread (stub host_uid 0) "alice" (ChUid 1002)
              (fresh host_staff) (alice_info 1001 ["staff"])
              (alice_info 1002 ["staff"])) as [Hrun Hreport];
    [vm_compute; reflexivity | exact Hne | vm_compute; reflexivity | ].
  split; [exact Hrun|].
  apply (Hreport (stub host_uid 1)). intros cmd h. reflexivity.
Defined.



Lemma nothing_to_do_witness :
  satisfied "alice" (Attribute (ChUid 1001)) (fresh host_staff)
  ∧ run (@submit (stub host_uid 0) "alice" (Attribute (ChUid 1001)))
        (fresh host_staff)
    = (Return true, fresh host_staff).
Proof.
  assert (satisfied "alice" (Attribute (ChUid 1001)) (fresh host_staff)) as Hsat.
  { exists (alice_info 1001 ["staff"]). split; [vm_compute|]; reflexivity. }
  split; [exact Hsat|].
  exact (@nothing_to_do (stub host_uid 0) "alice" (Attribute (ChUid 1001))
           (fresh host_staff) Hsat).
Defined.

Lemma lookup_miss_propagates_witness :
  ("bob" ∉ known (fresh host_staff))
  ∧ run (info "bob") (fresh host_staff)
    = (Raise (KeyError "bob"), fresh host_staff)
  ∧ run (@chuid (stub host_uid 0) "bob" 1002) (fresh host_staff)
    = (Raise (KeyError "bob"), fresh host_staff).
Proof.
  assert ("bob" ∉ known (fresh host_staff)) as Hmiss.
  { apply (bool_decide_unpack _). vm_compute. exact I. }
  split; [exact Hmiss|].
  destruct (@lookup_miss_propagates (stub host_uid 0) "bob" (fresh host_staff)
              Hmiss) as (Hinfo & Hperform & _).
  split; [exact Hinfo|exact (Hperform (ChUid 1002))].
Defined.

(** * Further properties *)

(** ** Strings *)

(** One step of the computation of the appends in the goal. *)
Ltac app_step := unfold String.append; fold String.append.

Lemma append_nil_r (s : string) : s +:+ "" = s.
Proof. induction s as [|c s IH]; app_step; [done|by f_equal]. Qed.

Lemma append_assoc (s1 s2 s3 : string) : (s1 +:+ s2) +:+ s3 = s1 +:+ s2 +:+ s3.
Proof.
  induction s1 as [|c s1 IH]; [done|].
  change ((String c s1 +:+ s2) +:+ s3) with (String c ((s1 +:+ s2) +:+ s3)).
  change (String c s1 +:+ s2 +:+ s3) with (String c (s1 +:+ s2 +:+ s3)).
  by f_equal.
Qed.

Lemma split_not_nil sep s : split sep s ≠ [].
Proof.
  destruct s as [|c s]; simpl; [done|].
  destruct (Ascii.eqb c sep); [done|]. by destruct (split sep s).
Qed.

(** Joining the pieces of a string gives the string back. *)
Lemma join_split s : join "," (split "," s) = s.
Proof.
  unfold join. induction s as [|c s IH]; [done|]. simpl split.
  pose proof (split_not_nil ","%char s) as Hnil.
  destruct (Ascii.eqb_spec c ","%char) as [->|Hc];
    destruct (split "," s) as [|w ws]; try done.
  - change (String.concat "," ("" :: w :: ws))
      with ("" +:+ "," +:+ String.concat "," (w :: ws)).
    by rewrite IH.
  - rewrite <- IH. by destruct ws.
Qed.

Lemma split_comma_free s : has_comma s = false → split "," s = [s].
Proof.
  induction s as [|c s IH]; simpl; [done|].
  intros [Hc Hs]%orb_false_iff. rewrite Hc. by rewrite IH.
Qed.

Lemma split_append s t :
  has_comma s = false → split "," (s +:+ "," +:+ t) = s :: split "," t.
Proof.
  induction s as [|c s IH]; [done|].
  intros [Hc Hs]%orb_false_iff.
  change (String c s +:+ "," +:+ t) with (String c (s +:+ "," +:+ t)).
  simpl split. rewrite Hc. by rewrite IH.
Qed.

(** Splitting a joined list of comma-free names gives the list back. *)
Lemma split_join l :
  l ≠ [] → Forall (λ s, has_comma s = false) l → split "," (join "," l) = l.
Proof.
  unfold join. induction l as [|s l IH]; [done|]. intros _ Hl.
  apply Forall_cons in Hl as [Hs Hl].
  destruct l as [|s' l]; [by apply split_comma_free|].
  change (String.concat "," (s :: s' :: l))
    with (s +:+ "," +:+ String.concat "," (s' :: l)).
  rewrite split_append by done. f_equal. by apply IH.
Qed.

Lemma has_slash_append d b : has_slash (d +:+ "/" +:+ b) = true.
Proof.
  induction d as [|c d IH]; [done|].
  change (String c d +:+ "/" +:+ b) with (String c (d +:+ "/" +:+ b)).
  simpl. by rewrite IH, orb_true_r.
Qed.

Lemma upto_last_slash_no_slash b : has_slash b = false → upto_last_slash b = "".
Proof. destruct b as [|c b]; simpl; [done|]. by intros ->. Qed.

Lemma upto_last_slash_append d b :
  has_slash b = false → upto_last_slash (d +:+ "/" +:+ b) = d +:+ "/".
Proof.
  intros Hb. induction d as [|c d IH].
  - change ("" +:+ "/" +:+ b) with (String "/" b). simpl.
    by rewrite upto_last_slash_no_slash.
  - change (String c d +:+ "/" +:+ b) with (String c (d +:+ "/" +:+ b)).
    change (String c d +:+ "/") with (String c (d +:+ "/")).
    change (upto_last_slash (String c (d +:+ "/" +:+ b)))
      with (if has_slash (String c (d +:+ "/" +:+ b))
            then String c (upto_last_slash (d +:+ "/" +:+ b)) else "").
    simpl has_slash. by rewrite has_slash_append, orb_true_r, IH.
Qed.

Lemma truthy_str_append d b : truthy_str (d +:+ "/" +:+ b) = true.
Proof. by destruct d. Qed.









(** ** The command line of [add] *)

Lemma add_if_opt_flag {A} (truthy : A → bool) x f cmd :
  add_if truthy x f cmd = cmd +:+ opt_flag truthy x f.
Proof.
  unfold add_if, opt_flag. destruct x as [a|]; [destruct (truthy a)|];
    by rewrite ?append_nil_r.
Qed.

Lemma add_command `{Salt} name uid gid groups home shell system kwargs st :
  run (add name uid gid groups home shell system kwargs) st
  = (Return (bool_decide
               (retcode (spawn (useradd name uid gid groups home shell) (os st)).2
                = 0)),
     executed (useradd name uid gid groups home shell) st).
Proof.
  unfold add. cbv zeta.
  match goal with
  | |- context [cmd_run_all ?c] =>
      replace c with (useradd name uid gid groups home shell)
  end.
  { by rewrite run_cmd_run_all_bind, run_mret, not_truthy_int. }
  unfold useradd, flag_s, flag_u, flag_g, flag_G.
  rewrite !add_if_opt_flag.
  replace (match groups with
           | Some (GroupsStr s) => Some (split "," s)
           | Some (GroupsList l) => Some l
           | None => None
           end) with (group_names <$> groups) by (by destruct groups as [[]|]).
  destruct home as [[]|p]; simpl flag_home; [| |destruct (truthy_str p)];
    rewrite ?append_nil_r, ?append_assoc; reflexivity.
Qed.

(** X1: whatever its arguments, [add] executes exactly one command line,
    made of [pw useradd], the flags of the parameters that count as true
    in the order -s, -u, -g, -G, -m/-b, and [-n <name>] last; its answer is
    whether that process exits with 0, the databases are not read. *)
Theorem add_command_line `{Salt} name uid gid groups home shell system kwargs st :
  let cmd := "pw useradd " +:+ flag_s shell +:+ flag_u uid +:+ flag_g gid
               +:+ flag_G groups +:+ flag_home home +:+ "-n " +:+ name in
  run (add name uid gid groups home shell system kwargs) st
  = (Return (bool_decide (retcode (spawn cmd (os st)).2 = 0)),
     {| os := (spawn cmd (os st)).1; calls := calls st ++ [cmd] |}).
Proof. intros cmd. by rewrite add_command, executed_eq. Qed.

(** X2: a [groups] string reaches the command line of [add] as it is,
    behind [-G]; this holds for the empty string too, which still gets its
    [-G]. *)
Theorem add_groups_string_verbatim `{Salt} name uid gid s home shell system
    kwargs st :
  calls (run (add name uid gid (Some (GroupsStr s)) home shell system kwargs) st).2
  = calls st
    ++ ["pw useradd " +:+ flag_s shell +:+ flag_u uid +:+ flag_g gid
          +:+ "-G " +:+ s +:+ " " +:+ flag_home home +:+ "-n " +:+ name].
Proof.
  rewrite add_command, executed_eq. simpl calls. do 2 f_equal.
  unfold useradd, flag_G, opt_flag.
  change (group_names <$> Some (GroupsStr s)) with (Some (split "," s)).
  cbv beta iota.
  pose proof (split_not_nil ","%char s) as Hnil.
  rewrite join_split. destruct (split "," s) as [|w ws]; [done|].
  simpl truthy_list. cbv iota. by rewrite !append_assoc.
Qed.

Lemma dirname_sibling d b1 b2 :
  has_slash b1 = false → has_slash b2 = false →
  dirname (d +:+ "/" +:+ b1) = dirname (d +:+ "/" +:+ b2).
Proof.
  intros Hb1 Hb2. unfold dirname. by rewrite !upto_last_slash_append.
Qed.

(** X3: the last component of a [home] path never reaches the command
    line: two paths that differ only after their last slash give the same
    run of [add]. *)
Theorem add_home_leaf_ignored `{Salt} name uid gid groups d b1 b2 shell system
    kwargs st :
  has_slash b1 = false → has_slash b2 = false →
  run (add name uid gid groups (HomePath (d +:+ "/" +:+ b1)) shell system kwargs) st
  = run (add name uid gid groups (HomePath (d +:+ "/" +:+ b2)) shell system kwargs) st.
Proof.
  intros Hb1 Hb2. rewrite !add_command. unfold useradd, flag_home.
  by rewrite !truthy_str_append, (dirname_sibling d b1 b2).
Qed.


(** ** The command line of [chgroups] *)

(** X5: a [groups] string reaches the command line of [chgroups] as it is:
    when the sets differ, the one command executed is
    [pw usermod -G <string> -n <name> ], with [-a] behind it for append. *)
Theorem chgroups_string_verbatim `{Salt} name s append st pre :
  run (list_groups name) st = (Return pre, st) →
  set_of pre ≠ set_of (split "," s) →
  calls (run (chgroups name (GroupsStr s) append) st).2
  = calls st
    ++ [let cmd := "pw usermod -G " +:+ s +:+ " -n " +:+ name +:+ " " in
        if append then cmd +:+ "-a" else cmd].
Proof.
  intros Hpre Hne.
  destruct (list_groups_total name
              (executed (usermod_groups name (split "," s) append) st))
    as [post Hpost].
  rewrite (run_chgroups name (GroupsStr s) append st pre post Hpre Hne Hpost).
  simpl. rewrite executed_eq. simpl. unfold usermod_groups.
  by rewrite join_split.
Qed.

(** X6: for a sequence of names that is not empty and has no comma in any
    name, the joined string and the sequence are interchangeable, in
    [chgroups] and in [add]. *)
Theorem joined_string_same_as_sequence `{Salt} name l append uid gid home shell
    system kwargs st :
  l ≠ [] → Forall (λ s, has_comma s = false) l →
  run (chgroups name (GroupsStr (join "," l)) append) st
  = run (chgroups name (GroupsList l) append) st
  ∧ run (add name uid gid (Some (GroupsStr (join "," l))) home shell system
             kwargs) st
    = run (add name uid gid (Some (GroupsList l)) home shell system kwargs) st.
Proof.
  intros Hnil Hl. split.
  - unfold chgroups. by rewrite split_join.
  - unfold add. by rewrite split_join.
Qed.

(** ** What an answer tells *)

Lemma run_perform_post_raise `{Salt} name c st pre e :
  let st' := executed (usermod name c) st in
  run (info name) st = (Return pre, st) →
  ¬ holds c pre →
  run (info name) st' = (Raise e, st') →
  run (perform name c) st = (Raise e, st').
Proof.
  intros st' Hpre Hne Hpost.
  destruct c as [uid|gid|shell|home persist]; simpl in *;
    [unfold chuid|unfold chgid|unfold chshell|unfold chhome];
    step_info Hpre;
    (rewrite bool_decide_eq_false_2 by (by intros ->));
    rewrite run_cmd_run_bind;
    by erewrite run_bind_raise by exact Hpost.
Qed.

Lemma same_attr_holds c i j : same_attr c i j → holds c j → holds c i.
Proof. destruct c; simpl; congruence. Qed.

(** The ways a change of an attribute can run. *)
Lemma perform_cases `{Salt} name c st :
  (∃ e, run (info name) st = (Raise e, st)
        ∧ run (perform name c) st = (Raise e, st))
  ∨ (∃ pre, run (info name) st = (Return pre, st) ∧ holds c pre
            ∧ run (perform name c) st = (Return true, st))
  ∨ (∃ pre e, run (info name) st = (Return pre, st) ∧ ¬ holds c pre
              ∧ run (info name) (executed (usermod name c) st)
                = (Raise e, executed (usermod name c) st)
              ∧ run (perform name c) st
                = (Raise e, executed (usermod name c) st))
  ∨ (∃ pre post, run (info name) st = (Return pre, st) ∧ ¬ holds c pre
                 ∧ run (info name) (executed (usermod name c) st)
                   = (Return post, executed (usermod name c) st)
                 ∧ run (perform name c) st
                   = (Return (if decide (same_attr c pre post) then false
                              else bool_decide (holds c post)),
                      executed (usermod name c) st)).
Proof.
  destruct (run (info name) st) as [[pre|e] st1] eqn:Hpre;
    pose proof (info_state _ _ _ _ Hpre) as ->.
  - destruct (decide (holds c pre)) as [Hholds|Hne].
    + right. left. exists pre. split_and!; [done..|].
      apply (run_submit_satisfied name (Attribute c)). by exists pre.
    + destruct (run (info name) (executed (usermod name c) st))
        as [[post|e] st2] eqn:Hpost;
        pose proof (info_state _ _ _ _ Hpost) as ->.
      * do 3 right. exists pre, post. split_and!; [done..|].
        by apply run_perform.
      * do 2 right. left. exists pre, e. split_and!; [done..|].
        by apply (run_perform_post_raise name c st pre e).
  - left. exists e. split; [done|].
    apply info_raise_inv in Hpre as (-> & Hmiss & _). by apply perform_miss.
Qed.

(** X7: whenever [chuid], [chgid], [chshell] or [chhome] answers, the
    answer is whether the record that [info] gives afterwards has the
    requested value: true for a value that is there, false for one that is
    not. *)
Theorem answer_is_final_value `{Salt} name c st b st' post :
  run (perform name c) st = (Return b, st') →
  run (info name) st' = (Return post, st') →
  b = bool_decide (holds c post).
Proof.
  intros Hrun Hpost.
  destruct (perform_cases name c st)
    as [(e & _ & Hp)|[(pre & Hpre & Hholds & Hp)|[(pre & e & _ & _ & _ & Hp)
       |(pre & post' & Hpre & Hne & Hpost' & Hp)]]];
    rewrite Hp in Hrun; simplify_eq.
  - rewrite Hpre in Hpost. simplify_eq. by rewrite bool_decide_eq_true_2.
  - rewrite Hpost' in Hpost. simplify_eq.
    destruct (decide (same_attr c pre post)) as [Hsame|Hdiff]; [|done].
    rewrite bool_decide_eq_false_2; [done|].
    intros Hholds. by apply Hne, (same_attr_holds c pre post).
Qed.

(** X8: a change of an attribute or of the groups hands the collaborator
    no command line or one, and that one is the [pw usermod] line of the
    request; this holds for the runs that raise as well. *)
Theorem change_runs_at_most_one_command `{Salt} name r st :
  let log := calls (run (submit name r) st).2 in
  log = calls st ∨ log = calls st ++ [command name r].
Proof.
  intros log. unfold log. destruct r as [c|groups append]; simpl.
  - destruct (perform_cases name c st)
      as [(e & _ & Hp)|[(pre & _ & _ & Hp)|[(pre & e & _ & _ & _ & Hp)
         |(pre & post & _ & _ & _ & Hp)]]];
      rewrite Hp; simpl; rewrite ?executed_eq; auto.
  - destruct (list_groups_total name st) as [pre Hpre].
    destruct (decide (set_of pre = set_of (group_names groups))) as [Heq|Hne].
    + left.
      pose proof (run_submit_satisfied name (Groups groups append) st) as Hrun.
      simpl in Hrun. rewrite Hrun; [done|]. by exists pre.
    + right.
      destruct (list_groups_total name
                  (executed (usermod_groups name (group_names groups) append) st))
        as [post Hpost].
      rewrite (run_chgroups _ _ _ _ pre post Hpre Hne Hpost).
      simpl. by rewrite executed_eq.
Qed.

(** ** Answers of [chgroups] *)

(** X9: when the command leaves the group database as it was, [chgroups]
    answers true, although the user's groups are not the requested ones. *)
Theorem chgroups_unchanged_is_success `{Salt} name groups append st pre :
  let st' := executed (usermod_groups name (group_names groups) append) st in
  run (list_groups name) st = (Return pre, st) →
  set_of pre ≠ set_of (group_names groups) →
  getgrall (os st') = getgrall (os st) →
  run (chgroups name groups append) st = (Return true, st').
Proof.
  intros st' Hpre Hne Hsame.
  assert (run (list_groups name) st' = (Return pre, st')) as Hpost.
  { rewrite run_list_groups, Hsame. rewrite run_list_groups in Hpre.
    by simplify_eq. }
  rewrite (run_chgroups _ _ _ _ pre pre Hpre Hne Hpost).
  by rewrite bool_decide_eq_true_2.
Qed.

(** X10: when the command leaves the user with exactly the requested
    groups, [chgroups] answers whether every former group is a requested
    one: a replacement that takes the user out of a group is answered with
    false. *)
Theorem chgroups_after_replacement `{Salt} name groups append st pre post :
  let st' := executed (usermod_groups name (group_names groups) append) st in
  run (list_groups name) st = (Return pre, st) →
  set_of pre ≠ set_of (group_names groups) →
  run (list_groups name) st' = (Return post, st') →
  set_of post = set_of (group_names groups) →
  run (chgroups name groups append) st
  = (Return (bool_decide (pre ⊆ group_names groups)), st').
Proof.
  intros st' Hpre Hne Hpost Hset.
  rewrite (run_chgroups _ _ _ _ pre post Hpre Hne Hpost).
  do 2 f_equal. apply bool_decide_ext.
  assert (∀ g, g ∈ post ↔ g ∈ group_names groups) as Hmem.
  { intros g. unfold set_of in Hset.
    by rewrite <- !(elem_of_list_to_set (C := gset string)), Hset. }
  split; intros Hsub g Hg; by apply Hmem, Hsub.
Qed.

(** X14: the answer of [list_groups] does not depend on the order in which
    the group database is enumerated. *)
Theorem list_groups_order_independent name st1 st2 :
  getgrall (os st1) ≡ₚ getgrall (os st2) →
  (run (list_groups name) st1).1 = (run (list_groups name) st2).1.
Proof.
  intros Hperm. rewrite !run_list_groups. simpl. do 2 f_equal.
  apply set_eq. intros g. rewrite !elem_of_collected.
  by setoid_rewrite Hperm.
Qed.

(** ** Records *)

(** What a successful [info] has read. *)
Lemma info_inv name st i :
  run (info name) st = (Return i, st) →
  ∃ d, d ∈ getpwall (os st) ∧ pw_name d = name ∧ describes st d i.
Proof.
  unfold info, run, mbind, M_bind, pwd_getpwnam.
  pose proof (find_by_name name (getpwall (os st))) as Hfind.
  destruct (find _ _) as [d|]; [|done]. destruct Hfind as [Hname Hin].
  simpl. intros [= <-]. exists d. subst name.
  unfold describes. split_and!; reflexivity || done.
Qed.

Lemma info_groups_listed name st i :
  run (info name) st = (Return i, st) →
  run (list_groups name) st = (Return (info_groups i), st).
Proof.
  intros (d & _ & <- & Hd)%info_inv. by destruct Hd as (_ & _ & _ & _ & _ & _ & ?).
Qed.

(** Among distinct names, a name finds its own entry. *)
Lemma find_own_entry (l : list struct_passwd) d :
  NoDup (pw_name <$> l) → d ∈ l →
  find (λ d', bool_decide (pw_name d' = pw_name d)) l = Some d.
Proof.
  induction l as [|x l IH]; simpl; intros Hnd Hin.
  - by apply elem_of_nil in Hin.
  - apply NoDup_cons in Hnd as [Hx Hnd].
    apply elem_of_cons in Hin as [->|Hin].
    + by rewrite bool_decide_eq_true_2.
    + rewrite bool_decide_eq_false_2; [by apply IH|].
      intros Heq. apply Hx. rewrite Heq. by apply list_elem_of_fmap_2.
Qed.

Lemma info_own_entry st d :
  NoDup (known st) → d ∈ getpwall (os st) →
  ∃ i, run (info (pw_name d)) st = (Return i, st) ∧ describes st d i.
Proof.
  intros Hnd Hin. unfold info, run, mbind, M_bind, pwd_getpwnam.
  rewrite (find_own_entry _ d Hnd Hin). simpl.
  eexists. split; [reflexivity|].
  unfold describes. split_and!; reflexivity.
Qed.

(** The loop of [getent] over entries whose names are all found. *)
Lemma getent_loop_records (P : struct_passwd → user_info → Prop) entries ret st :
  (∀ d, d ∈ entries →
        ∃ i, run (info (pw_name d)) st = (Return i, st) ∧ P d i) →
  ∃ l, run (getent_loop entries ret) st = (Return (ret ++ l), st)
       ∧ Forall2 P entries l.
Proof.
  revert ret. induction entries as [|d entries IH]; intros ret Hall; simpl.
  - exists []. by rewrite app_nil_r, run_mret.
  - destruct (Hall d) as (i & Hi & HP); [apply list_elem_of_here|].
    destruct (IH (ret ++ [i])) as (l & Hl & HPl).
    { intros d' Hd'. apply Hall. by apply list_elem_of_further. }
    exists (i :: l). step_info Hi. rewrite Hl, <- app_assoc.
    split; [done|]. by constructor.
Qed.

(** X11: [getent] never raises and leaves the state alone; it gives one
    record for each entry of the password database, in the order of the
    database, and each record is what [info] gives for the name of that
    entry, so that entries of one name get one and the same record. *)
Theorem getent_lists_records st :
  ∃ l, run getent st = (Return l, st)
       ∧ Forall2 (λ d i, run (info (pw_name d)) st = (Return i, st))
                 (getpwall (os st)) l.
Proof.
  destruct (getent_loop_records
              (λ d i, run (info (pw_name d)) st = (Return i, st))
              (getpwall (os st)) [] st) as (l & Hl & HP).
  { intros d Hd. destruct (info_hit (pw_name d) st) as [i Hi]; [|by exists i].
    by apply list_elem_of_fmap_2. }
  exists l. split; [|done]. unfold getent.
  by erewrite run_bind_return by reflexivity.
Qed.

(** X12: on a password database without a repeated name, [getent] gives,
    entry by entry and in the same order, the name, password field, uid,
    gid, home and shell of the entry and the groups that [list_groups]
    finds for the name. *)
Theorem getent_distinct_names st :
  NoDup (known st) →
  ∃ l, run getent st = (Return l, st)
       ∧ Forall2 (describes st) (getpwall (os st)) l.
Proof.
  intros Hnd.
  destruct (getent_loop_records (describes st) (getpwall (os st)) [] st)
    as (l & Hl & HP).
  { intros d Hd. by apply info_own_entry. }
  exists l. split; [|done]. unfold getent.
  by erewrite run_bind_return by reflexivity.
Qed.

(** X13: asking for what [info] reports changes nothing: with the uid,
    gid, shell, home or groups of the record, each of the five changes
    answers true and executes no command. *)
Theorem feedback_is_noop `{Salt} name st i persist append :
  run (info name) st = (Return i, st) →
  run (chuid name (info_uid i)) st = (Return true, st)
  ∧ run (chgid name (info_gid i)) st = (Return true, st)
  ∧ run (chshell name (info_shell i)) st = (Return true, st)
  ∧ run (chhome name (info_home i) persist) st = (Return true, st)
  ∧ run (chgroups name (GroupsList (info_groups i)) append) st
    = (Return true, st).
Proof.
  intros Hi.
  split_and!;
    [apply (run_submit_satisfied name (Attribute (ChUid (info_uid i))))
    |apply (run_submit_satisfied name (Attribute (ChGid (info_gid i))))
    |apply (run_submit_satisfied name (Attribute (ChShell (info_shell i))))
    |apply (run_submit_satisfied name (Attribute (ChHome (info_home i) persist)))
    |apply (run_submit_satisfied name (Groups (GroupsList (info_groups i)) append))];
    try (by exists i).
  exists (info_groups i). split; [by apply info_groups_listed|done].
Qed.

(** ** Exit codes and late failures *)

(** X15: [delete] executes its one command line and answers whether the
    process exits with 0; it does not look the user up, before or after. *)
Theorem delete_trusts_exit_code `{Salt} name (remove force : bool) st :
  let cmd := if remove then "pw userdel -r " +:+ name
             else "pw userdel " +:+ name in
  run (delete name remove force) st
  = (Return (bool_decide (retcode (spawn cmd (os st)).2 = 0)),
     {| os := (spawn cmd (os st)).1; calls := calls st ++ [cmd] |}).
Proof.
  intros cmd. unfold delete. cbv zeta.
  match goal with
  | |- context [cmd_run_all ?c] => replace c with cmd by (by destruct remove)
  end.
  by rewrite run_cmd_run_all_bind, run_mret, not_truthy_int, executed_eq.
Qed.

(** X16: when the command of an attribute change leaves the password
    database without the user, the change raises the lookup error after the
    command has been executed: the state that comes with the error is the
    one the process left. *)
Theorem change_raises_after_command `{Salt} name c st pre :
  let st' := executed (usermod name c) st in
  run (info name) st = (Return pre, st) →
  ¬ holds c pre →
  name ∉ known st' →
  run (perform name c) st = (Raise (KeyError name), st').
Proof.
  intros st' Hpre Hne Hmiss.
  apply (run_perform_post_raise name c st pre); [done..|].
  by apply info_miss.
Qed.

(** ** The further properties at work on the sample databases *)

Lemma add_home_leaf_ignored_witness :
  run (@add (stub host_staff 0) "carol" None None None
            (HomePath ("/usr/home" +:+ "/" +:+ "carol")) None false ∅)
      (fresh host_staff)
  = run (@add (stub host_staff 0) "carol" None None None
              (HomePath ("/usr/home" +:+ "/" +:+ "guest")) None false ∅)
        (fresh host_staff).
Proof.
  exact (@add_home_leaf_ignored (stub host_staff 0) "carol" None None None
           "/usr/home" "carol" "guest" None false ∅ (fresh host_staff)
           eq_refl eq_refl).
Defined.


Lemma chgroups_string_verbatim_witness :
  set_of ["staff"] ≠ set_of (split "," "wheel,ops")
  ∧ calls (run (@chgroups (stub host_wheel 0) "alice" (GroupsStr "wheel,ops")
                          true) (fresh host_staff)).2
    = ["pw usermod -G wheel,ops -n alice -a"].
Proof.
  assert (set_of ["staff"] ≠ set_of (split "," "wheel,ops")) as Hne.
  { apply (bool_decide_unpack _). vm_compute. exact I. }
  split; [exact Hne|].
  exact (@chgroups_string_verbatim (stub host_wheel 0) "alice" "wheel,ops" true
           (fresh host_staff) ["staff"] eq_refl Hne).
Defined.

Lemma joined_string_same_as_sequence_witness :
  run (@chgroups (stub host_wheel 0) "alice"
                 (GroupsStr (join "," ["wheel"; "root"])) false)
      (fresh host_staff)
  = run (@chgroups (stub host_wheel 0) "alice" (GroupsList ["wheel"; "root"])
                   false) (fresh host_staff).
Proof.
  refine (proj1 (@joined_string_same_as_sequence (stub host_wheel 0) "alice"
                   ["wheel"; "root"] false None None (HomeBool true) None false
                   ∅ (fresh host_staff) _ _)).
  - discriminate.
  - repeat constructor.
Defined.

Lemma answer_is_final_value_witness :
  true = bool_decide (holds (ChUid 1002) (alice_info 1002 ["staff"])).
Proof.
  refine (@answer_is_final_value (stub host_uid 0) "alice" (ChUid 1002)
            (fresh host_staff) true
            {| os := host_uid; calls := ["pw usermod -u 1002 alice"] |}
            (alice_info 1002 ["staff"]) _ _); vm_compute; reflexivity.
Defined.

Lemma chgroups_unchanged_is_success_witness :
  set_of ["staff"] ≠ set_of ["wheel"]
  ∧ run (@chgroups (stub host_staff 1) "alice" (GroupsList ["wheel"]) false)
        (fresh host_staff)
    = (Return true,
       {| os := host_staff; calls := ["pw usermod -G wheel -n alice "] |}).
Proof.
  assert (set_of ["staff"] ≠ set_of ["wheel"]) as Hne.
  { apply (bool_decide_unpack _). vm_compute. exact I. }
  split; [exact Hne|].
  exact (@chgroups_unchanged_is_success (stub host_staff 1) "alice"
           (GroupsList ["wheel"]) false (fresh host_staff) ["staff"]
           eq_refl Hne eq_refl).
Defined.

Lemma chgroups_after_replacement_witness :
  set_of ["staff"] ≠ set_of ["wheel"]
  ∧ run (@chgroups (stub host_wheel 0) "alice" (GroupsList ["wheel"]) false)
        (fresh host_staff)
    = (Return false,
       {| os := host_wheel; calls := ["pw usermod -G wheel -n alice "] |}).
Proof.
  assert (set_of ["staff"] ≠ set_of ["wheel"]) as Hne.
  { apply (bool_decide_unpack _). vm_compute. exact I. }
  split; [exact Hne|].
  exact (@chgroups_after_replacement (stub host_wheel 0) "alice"
           (GroupsList ["wheel"]) false (fresh host_staff) ["staff"] ["wheel"]
           eq_refl Hne eq_refl eq_refl).
Defined.

Lemma list_groups_order_independent_witness :
  (run (list_groups "root") (fresh host_duplicates)).1
  = (run (list_groups "root")
         (fresh {| getpwall := getpwall host_duplicates;
                   getgrall := reverse (getgrall host_duplicates) |})).1.
Proof.
  apply (list_groups_order_independent "root" (fresh host_duplicates)
           (fresh {| getpwall := getpwall host_duplicates;
                     getgrall := reverse (getgrall host_duplicates) |})).
  simpl. symmetry. apply reverse_Permutation.
Defined.

Lemma getent_distinct_names_witness :
  NoDup (known (fresh host_staff))
  ∧ ∃ l, run getent (fresh host_staff) = (Return l, fresh host_staff)
         ∧ Forall2 (describes (fresh host_staff)) (getpwall host_staff) l.
Proof.
  assert (NoDup (known (fresh host_staff))) as Hnd.
  { apply (bool_decide_unpack _). vm_compute. exact I. }
  split; [exact Hnd|].
  exact (getent_distinct_names (fresh host_staff) Hnd).
Defined.

Lemma feedback_is_noop_witness :
  run (@chuid (stub host_uid 0) "alice" 1001) (fresh host_staff)
  = (Return true, fresh host_staff).
Proof.
  refine (proj1 (@feedback_is_noop (stub host_uid 0) "alice" (fresh host_staff)
                   (alice_info 1001 ["staff"]) false false _)).
  vm_compute. reflexivity.
Defined.

Lemma change_raises_after_command_witness :
  ("alice" ∉ known (fresh host_duplicates))
  ∧ run (@perform (stub host_duplicates 0) "alice" (ChUid 1002))
        (fresh host_staff)
    = (Raise (KeyError "alice"),
       {| os := host_duplicates; calls := ["pw usermod -u 1002 alice"] |}).
Proof.
  assert ("alice" ∉ known (fresh host_duplicates)) as Hmiss.
  { apply (bool_decide_unpack _). vm_compute. exact I. }
  split; [exact Hmiss|].
  refine (@change_raises_after_command (stub host_duplicates 0) "alice"
            (ChUid 1002) (fresh host_staff) (alice_info 1001 ["staff"]) _ _ Hmiss).
  - vm_compute. reflexivity.
  - simpl. lia.
Defined.
